(** * AlphaPunch: chroma-key extraction, resampling and the generation
      state machine of [src/App.tsx]

    The development embeds three pieces of [App.tsx]:
    - the pixel loop of [processImageTransparency] (lines 48-61), over the
      flat RGBA byte array [imageData.data];
    - the inner function [resize] (lines 65-76), over a canvas and the
      browser's encoder;
    - the React component state of [App] with the handlers
      [handleImageSelect], [handleGenerate] and the history click handler,
      where every [await] splits a handler into the part that runs at once
      and the continuation that runs when the promise settles;
    and, for the further properties at the end, the conditionals of the JSX
    that decide what is on screen. *)

From stdpp Require Import base numbers list strings pretty.

Local Open Scope Z_scope.

(** ** Types of [types.ts] *)

Inductive AppStatus : Type := IDLE | PROCESSING | SUCCESS | ERROR.

#[global] Instance AppStatus_eq_dec : EqDecision AppStatus.
Proof. solve_decision. Defined.

Record HistoryItem : Type := mkHistoryItem {
  id : string;
  timestamp : Z;
  original : string;
  generated : string;
  promptUsed : string;
  thumbnail : string
}.

(** ** The pixel loop of [processImageTransparency]

    [data] is the [Uint8ClampedArray] of an [ImageData]: a flat list of
    channel values, four per pixel.  Reading past the end of a typed array
    gives [undefined], and every comparison with an [undefined] operand is
    false; writing past the end is ignored, which is what stdpp's list
    insert does. *)

Definition minGreen : Z := 40.
Definition dominanceThreshold : Z := 10.

Section ChromaKey.
(** The two local constants of the source, kept as parameters so that the
    statements below hold for every key colour policy. *)
Variables (minG domT : Z).

(** [g > r + dominanceThreshold && g > b + dominanceThreshold && g > minGreen] *)
Definition isGreenWith (r g b : Z) : bool :=
  (r + domT <? g) && (b + domT <? g) && (minG <? g).

(** [isGreen] as computed at loop index [i] from [data[i]], [data[i+1]],
    [data[i+2]]. *)
Definition isGreenAt (data : list Z) (i : nat) : bool :=
  match data !! i, data !! (i + 1)%nat, data !! (i + 2)%nat with
  | Some r, Some g, Some b => isGreenWith r g b
  | _, _, _ => false
  end.

(** One iteration of the loop body at index [i]. *)
Definition chromaBody (data : list Z) (i : nat) : list Z :=
  if isGreenAt data i then <[(i + 3)%nat := 0]> data else data.

(** The indices visited by [for (let i = 0; i < data.length; i += 4)]:
    the multiples of four below [len].  The length of a typed array is
    fixed, so the bound is the same at every iteration. *)
Definition loopIndices (len : nat) : list nat :=
  (λ k, 4 * k)%nat <$> seq 0 (Nat.div (len + 3) 4).

Definition chromaLoop (data : list Z) : list Z :=
  foldl chromaBody data (loopIndices (length data)).
End ChromaKey.

(** The loop with the constants of the source. *)
Definition isGreen : Z → Z → Z → bool := isGreenWith minGreen dominanceThreshold.
Definition chromaKey : list Z → list Z := chromaLoop minGreen dominanceThreshold.

(** ** Canvas, [ImageData] and the browser *)

Record ImageData : Type := mkImageData {
  id_width : Z;
  id_height : Z;
  id_data : list Z
}.

Record HTMLCanvasElement : Type := mkCanvas {
  width : Z;
  height : Z;
  bitmap : list Z
}.

(** What the code takes from the browser.  [loadImage] stands for loading
    [base64Str] into an [Image], drawing it on [tempCanvas] and reading the
    pixels back with [getImageData] ([None]: [img.onerror] fires);
    [getContext2d w h] tells whether a canvas of that size yields a 2D
    context; [drawImageScaled] is the five-argument [drawImage] onto a fresh
    canvas of the given size; [toDataURL] is the encoder, with the optional
    MIME type argument. *)
Record Browser : Type := mkBrowser {
  loadImage : string → option ImageData;
  getContext2d : Z → Z → bool;
  drawImageScaled : HTMLCanvasElement → Z → Z → list Z;
  toDataURL : HTMLCanvasElement → option string → string
}.

(** JavaScript truthiness of an optional number: [undefined] and [0] are
    falsy. *)
Definition truthyNum (n : option Z) : bool :=
  match n with
  | Some v => negb (v =? 0)
  | None => false
  end.

(** [!==] between an optional number and a number. *)
Definition strictNe (n : option Z) (v : Z) : bool :=
  match n with
  | Some u => negb (u =? v)
  | None => true
  end.

(** A rejected promise carries an object, as a rule an [Error]; only its
    [message] is read, and it may be missing. *)
Record JsError : Type := mkJsError { message : option string }.

Section Pipeline.
Context (br : Browser).

(** [resize] of lines 65-76; [w] and [h] are the size of the decoded
    image, which is also the size of [canvas]. *)
Definition resize (w h : Z) (targetWidth targetHeight : option Z)
    (canvas : HTMLCanvasElement) : string :=
  if truthyNum targetWidth && truthyNum targetHeight
     && (strictNe targetWidth w || strictNe targetHeight h)
  then
    match targetWidth, targetHeight with
    | Some tw, Some th =>
        if getContext2d br tw th
        then toDataURL br (mkCanvas tw th (drawImageScaled br canvas tw th))
               (Some "image/png")
        else toDataURL br canvas None
    | _, _ => toDataURL br canvas (Some "image/png")
    end
  else toDataURL br canvas (Some "image/png").

(** [processImageTransparency]: the promise settles with [inl e]
    (rejected) or [inr url] (resolved). *)
Definition processImageTransparency (base64Str : string)
    (targetWidth targetHeight : option Z) : JsError + string :=
  match loadImage br base64Str with
  | None => inl (mkJsError (Some "Failed to process mask transparency"))
  | Some img =>
      let w := id_width img in
      let h := id_height img in
      if getContext2d br w h then
        let data := chromaKey (id_data img) in
        inr (resize w h targetWidth targetHeight (mkCanvas w h data))
      else inl (mkJsError (Some "Canvas context not available"))
  end.
End Pipeline.

(** ** The state of the [App] component *)

Record PresetPrompt : Type := mkPreset {
  preset_id : string;
  preset_label : string;
  preset_description : string;
  preset_text : string
}.

Definition PRESETS : list PresetPrompt :=
  [ mkPreset "window-punch" "Punched Windows" "Make window views transparent."
      "Edit this image: Locate all window glass. Replace ONLY the view seen through the windows with solid pure green #00FF00. Do not change the window frames, curtains, or any interior items.";
    mkPreset "remove-bg" "Punched Background" "Transparent background around subject."
      "Edit this image: Identify the main subject in the foreground. Replace the entire background behind them with solid pure green #00FF00. Keep the subject exactly as they are." ].

(** One field per [useState] of lines 86-96. *)
Record AppState : Type := mkAppState {
  status : AppStatus;
  sourceImage : option string;
  originalDims : option (Z * Z);
  mimeType : string;
  generatedImage : option string;
  prompt : string;
  usePro : bool;
  error : option string;
  analysis : option string;
  history : list HistoryItem;
  fullViewImage : option string
}.

Definition initialState : AppState :=
  mkAppState IDLE None None "image/png" None
    (from_option preset_text EmptyString (PRESETS !! 0%nat))
    false None None [] None.

Definition setStatus (v : AppStatus) (s : AppState) : AppState :=
  mkAppState v (sourceImage s) (originalDims s) (mimeType s) (generatedImage s)
    (prompt s) (usePro s) (error s) (analysis s) (history s) (fullViewImage s).
Definition setSourceImage (v : option string) (s : AppState) : AppState :=
  mkAppState (status s) v (originalDims s) (mimeType s) (generatedImage s)
    (prompt s) (usePro s) (error s) (analysis s) (history s) (fullViewImage s).
Definition setOriginalDims (v : option (Z * Z)) (s : AppState) : AppState :=
  mkAppState (status s) (sourceImage s) v (mimeType s) (generatedImage s)
    (prompt s) (usePro s) (error s) (analysis s) (history s) (fullViewImage s).
Definition setMimeType (v : string) (s : AppState) : AppState :=
  mkAppState (status s) (sourceImage s) (originalDims s) v (generatedImage s)
    (prompt s) (usePro s) (error s) (analysis s) (history s) (fullViewImage s).
Definition setGeneratedImage (v : option string) (s : AppState) : AppState :=
  mkAppState (status s) (sourceImage s) (originalDims s) (mimeType s) v
    (prompt s) (usePro s) (error s) (analysis s) (history s) (fullViewImage s).
Definition setPrompt (v : string) (s : AppState) : AppState :=
  mkAppState (status s) (sourceImage s) (originalDims s) (mimeType s)
    (generatedImage s) v (usePro s) (error s) (analysis s) (history s)
    (fullViewImage s).
Definition setUsePro (v : bool) (s : AppState) : AppState :=
  mkAppState (status s) (sourceImage s) (originalDims s) (mimeType s)
    (generatedImage s) (prompt s) v (error s) (analysis s) (history s)
    (fullViewImage s).
Definition setError (v : option string) (s : AppState) : AppState :=
  mkAppState (status s) (sourceImage s) (originalDims s) (mimeType s)
    (generatedImage s) (prompt s) (usePro s) v (analysis s) (history s)
    (fullViewImage s).
Definition setAnalysis (v : option string) (s : AppState) : AppState :=
  mkAppState (status s) (sourceImage s) (originalDims s) (mimeType s)
    (generatedImage s) (prompt s) (usePro s) (error s) v (history s)
    (fullViewImage s).
(** [setHistory] is only ever called with an updater function. *)
Definition setHistory (f : list HistoryItem → list HistoryItem) (s : AppState)
    : AppState :=
  mkAppState (status s) (sourceImage s) (originalDims s) (mimeType s)
    (generatedImage s) (prompt s) (usePro s) (error s) (analysis s)
    (f (history s)) (fullViewImage s).
Definition setFullViewImage (v : option string) (s : AppState) : AppState :=
  mkAppState (status s) (sourceImage s) (originalDims s) (mimeType s)
    (generatedImage s) (prompt s) (usePro s) (error s) (analysis s) (history s) v.

(** JavaScript truthiness of a [string | null]: [null] and the empty string
    are falsy. *)
Definition truthyStr (v : option string) : bool :=
  match v with
  | Some EmptyString | None => false
  | Some _ => true
  end.

(** [Date.now().toString()]: the decimal numeral of an integer clock
    reading. *)
Definition toString (n : Z) : string := pretty n.

(** ** The history cache: [[item, ...prev].slice(0, 10)] *)

Definition push (item : HistoryItem) (prev : list HistoryItem) : list HistoryItem :=
  take 10 (item :: prev).

(** ** Handlers

    A handler that awaits a promise is split at the [await].  The part up to
    the first [await] runs when the handler is called; the rest runs when
    the promise settles, on the component state of that later moment, with
    the variables of the closure as they were when the handler was called. *)

(** The variables [handleGenerate] reads from its closure after the first
    [await]. *)
Record GenerateCall : Type := mkGenerateCall {
  g_sourceImage : string;
  g_mimeType : string;
  g_prompt : string;
  g_usePro : bool;
  g_originalDims : option (Z * Z)
}.

(** [handleImageSelect], lines 103-108: the state updates made before the
    analysis call is awaited. *)
Definition handleImageSelect (base64 type : string) (s : AppState) : AppState :=
  setAnalysis None
    (setError None
      (setStatus IDLE
        (setGeneratedImage None
          (setMimeType type
            (setSourceImage (Some base64) s))))).

(** Lines 111-115: the analysis promise settles. *)
Definition handleImageSelect_settle (r : JsError + string) (s : AppState)
    : AppState :=
  match r with
  | inr result => setAnalysis (Some result) s
  | inl _ => s
  end.

(** [handleGenerate], lines 119-123: returns the new state and, when the
    edit service is called, the closure of the pending call. *)
Definition handleGenerate (s : AppState) : AppState * option GenerateCall :=
  if negb (truthyStr (sourceImage s)) then (s, None)
  else
    match sourceImage s with
    | Some src =>
        (setGeneratedImage None (setError None (setStatus PROCESSING s)),
         Some (mkGenerateCall src (mimeType s) (prompt s) (usePro s)
                 (originalDims s)))
    | None => (s, None)
    end.

(** [e.message || "Failed to process image."] *)
Definition errorMessage (e : JsError) : string :=
  if truthyStr (message e) then default EmptyString (message e)
  else "Failed to process image.".

(** The entry built at lines 130-137; [now1] and [now2] are the two readings
    of [Date.now()]. *)
Definition newHistoryItem (c : GenerateCall) (finalImage : string)
    (now1 now2 : Z) : HistoryItem :=
  mkHistoryItem (toString now1) now2 (g_sourceImage c) finalImage (g_prompt c)
    finalImage.

Section Orchestrator.
Context (br : Browser).

(** Lines 126-127: what the two awaited promises of the [try] block
    deliver, given how the edit service settled.  No component state is
    read or written between the two, so both are taken in one step. *)
Definition generateChain (c : GenerateCall) (edit : JsError + string)
    : JsError + string :=
  match edit with
  | inl e => inl e
  | inr resultBase64 =>
      processImageTransparency br resultBase64
        (fst <$> g_originalDims c) (snd <$> g_originalDims c)
  end.

(** Lines 129-143: the continuation of [handleGenerate]. *)
Definition handleGenerate_settle (c : GenerateCall) (edit : JsError + string)
    (now1 now2 : Z) (s : AppState) : AppState :=
  match generateChain c edit with
  | inr finalImage =>
      setStatus SUCCESS
        (setHistory (push (newHistoryItem c finalImage now1 now2))
          (setGeneratedImage (Some finalImage) s))
  | inl e =>
      setStatus ERROR (setError (Some (errorMessage e)) s)
  end.

(** The click handlers of a history entry, lines 323-327 and 341-345. *)
Definition handleHistoryClick (item : HistoryItem) (s : AppState) : AppState :=
  setStatus SUCCESS
    (setGeneratedImage (Some (generated item))
      (setSourceImage (Some (original item)) s)).

(** [disabled={!sourceImage || status === AppStatus.PROCESSING}] *)
Definition generateDisabled (s : AppState) : bool :=
  negb (truthyStr (sourceImage s)) || bool_decide (status s = PROCESSING).

(** ** The component with its pending promises *)

Record World : Type := mkWorld {
  app : AppState;
  inflight : list GenerateCall;     (* edit calls not yet settled *)
  loading : list string;            (* images whose [onload] is pending *)
  analysing : list (string * string) (* analysis calls not yet settled *)
}.

Definition initialWorld : World := mkWorld initialState [] [] [].

Inductive Event : Type :=
| ImageSelected (base64 type : string)
| ImageLoaded (k : nat)
| AnalysisSettled (k : nat) (r : JsError + string)
| GenerateClicked
| EditSettled (k : nat) (edit : JsError + string) (now1 now2 : Z)
| HistoryClicked (k : nat)
| PresetClicked (k : nat)
| UseProClicked (v : bool)
| FullViewSet (v : option string).

(** Modelled from the spec: the [Button] component (components/Button) is
    not among the sources.  A generate request issued while the button is
    disabled is rejected as a no-op; otherwise the click calls
    [handleGenerate]. *)
Definition clickGenerate (w : World) : World :=
  if generateDisabled (app w) then w
  else
    let '(s, call) := handleGenerate (app w) in
    mkWorld s (inflight w ++ option_list call) (loading w) (analysing w).

(** One event of the event loop; [None] when the event cannot occur in
    [w] (no such pending promise, no such history entry or preset). *)
Definition step (w : World) (e : Event) : option World :=
  match e with
  | ImageSelected base64 type =>
      Some (mkWorld (handleImageSelect base64 type (app w)) (inflight w)
              (loading w ++ [base64]) (analysing w ++ [(base64, type)]))
  | ImageLoaded k =>
      base64 ← loading w !! k;
      img ← loadImage br base64;
      Some (mkWorld
              (setOriginalDims (Some (id_width img, id_height img)) (app w))
              (inflight w) (delete k (loading w)) (analysing w))
  | AnalysisSettled k r =>
      _ ← analysing w !! k;
      Some (mkWorld (handleImageSelect_settle r (app w)) (inflight w)
              (loading w) (delete k (analysing w)))
  | GenerateClicked => Some (clickGenerate w)
  | EditSettled k edit now1 now2 =>
      c ← inflight w !! k;
      Some (mkWorld (handleGenerate_settle c edit now1 now2 (app w))
              (delete k (inflight w)) (loading w) (analysing w))
  | HistoryClicked k =>
      item ← history (app w) !! k;
      Some (mkWorld (handleHistoryClick item (app w)) (inflight w)
              (loading w) (analysing w))
  | PresetClicked k =>
      p ← PRESETS !! k;
      Some (mkWorld (setPrompt (preset_text p) (app w)) (inflight w)
              (loading w) (analysing w))
  | UseProClicked v =>
      Some (mkWorld (setUsePro v (app w)) (inflight w) (loading w)
              (analysing w))
  | FullViewSet v =>
      Some (mkWorld (setFullViewImage v (app w)) (inflight w) (loading w)
              (analysing w))
  end.

Fixpoint run (w : World) (evs : list Event) : option World :=
  match evs with
  | [] => Some w
  | e :: evs' => w' ← step w e; run w' evs'
  end.

(** The history entry an event creates, if any. *)
Definition created (w : World) (e : Event) : list HistoryItem :=
  match e with
  | EditSettled k edit now1 now2 =>
      match inflight w !! k with
      | Some c =>
          match generateChain c edit with
          | inr finalImage => [newHistoryItem c finalImage now1 now2]
          | inl _ => []
          end
      | None => []
      end
  | _ => []
  end.

(** All history entries created along a run, oldest first. *)
Fixpoint createdItems (w : World) (evs : list Event) : list HistoryItem :=
  match evs with
  | [] => []
  | e :: evs' =>
      match step w e with
      | Some w' => created w e ++ createdItems w' evs'
      | None => []
      end
  end.

End Orchestrator.

(** A browser for the concrete runs below: every image decodes to the same
    2x1 bitmap, contexts are always available, scaling yields transparent
    black and the encoder answers with a fixed data URL. *)
Definition demoBrowser : Browser :=
  mkBrowser
    (λ _, Some (mkImageData 2 1 [0; 255; 0; 255; 200; 200; 200; 255]))
    (λ _ _, true)
    (λ _ tw th, replicate (Z.to_nat (4 * tw * th)) 0)
    (λ _ _, "data:image/png;base64,AAAA").

(** Concrete traces used below. *)

(** A source is selected and a generation requested; a second source is
    selected while the edit call is still pending. *)
Definition reselectTrace : list Event :=
  [ ImageSelected "data:a" "image/png"; GenerateClicked;
    ImageSelected "data:b" "image/jpeg" ].

(** The pending edit call of [reselectTrace] resolves. *)
Definition lateResult : Event :=
  EditSettled 0 (inr "data:edited-a") 1700000000000 1700000000000.

(** One generation that succeeds. *)
Definition firstSuccessTrace : list Event :=
  [ ImageSelected "data:a" "image/png"; GenerateClicked;
    EditSettled 0 (inr "data:edited") 1700000000000 1700000000000 ].

(** A second attempt, rejected by the edit service. *)
Definition failedRetry : list Event :=
  [ GenerateClicked;
    EditSettled 0 (inl (mkJsError (Some "Service unavailable")))
      1700000005000 1700000005000 ].

(** Two overlapping generations whose results arrive within the same
    millisecond. *)
Definition sameTickTrace : list Event :=
  reselectTrace ++
  [ GenerateClicked;
    EditSettled 0 (inr "data:edited-a") 1700000000000 1700000000000;
    EditSettled 0 (inr "data:edited-b") 1700000000000 1700000000000 ].

(** ** What [App] renders

    The conditionals of the JSX that decide what is on screen. *)

(** Lines 244-299: the main viewport shows the spinner while the status is
    Processing, else the generated image if there is one, else the
    placeholder. *)
Inductive MainView : Type :=
| Spinner
| ResultImage (src : string)
| WaitingForInput.

Definition mainView (s : AppState) : MainView :=
  if bool_decide (status s = PROCESSING) then Spinner
  else
    match generatedImage s with
    | Some src => if truthyStr (Some src) then ResultImage src else WaitingForInput
    | None => WaitingForInput
    end.

(** Lines 229-234: [{error && (...)}]. *)
Definition errorBox (s : AppState) : option string :=
  if truthyStr (error s) then error s else None.

(** Lines 191-196: [{analysis && (...)}]. *)
Definition analysisCard (s : AppState) : option string :=
  if truthyStr (analysis s) then analysis s else None.

(** Line 207: [prompt === preset.text] marks the selected mode. *)
Definition presetSelected (s : AppState) (p : PresetPrompt) : bool :=
  bool_decide (prompt s = preset_text p).

(** The prompt texts the mode buttons can set. *)
Definition presetTexts : list string := preset_text <$> PRESETS.

(** ** Consistency of the component state

    What holds of the state and the pending edit calls together, in every
    world the event loop can reach. *)
Definition consistent (w : World) : Prop :=
  let s := app w in
  (status s = IDLE ∨ status s = PROCESSING →
     generatedImage s = None ∧ error s = None) ∧
  (status s = SUCCESS → is_Some (generatedImage s)) ∧
  (status s = ERROR → ∃ m, error s = Some m ∧ m ≠ EmptyString) ∧
  (status s = PROCESSING → inflight w ≠ []) ∧
  (sourceImage s = None →
     status s = IDLE ∧ inflight w = [] ∧ history s = []) ∧
  prompt s ∈ presetTexts ∧
  Forall (λ c, g_sourceImage c ≠ EmptyString ∧ g_prompt c ∈ presetTexts)
    (inflight w) ∧
  Forall (λ item, original item ≠ EmptyString ∧ promptUsed item ∈ presetTexts)
    (history s).

(** A second browser for concrete runs: the empty string does not decode,
    canvases wider or higher than 4096 get no context, and the encoder
    reports the size of the canvas it is given. *)
Definition probeBrowser : Browser :=
  mkBrowser
    (λ s, match s with
          | EmptyString => None
          | _ => Some (mkImageData 2 1 [0; 255; 0; 255; 200; 200; 200; 255])
          end)
    (λ w h, (w <=? 4096) && (h <=? 4096))
    (λ _ tw th, replicate (Z.to_nat (4 * tw * th)) 0)
    (λ c _, "canvas " +:+ pretty (width c) +:+ "x" +:+ pretty (height c)).

(** ** The entries a run puts in the history *)

Section Settled.
Context (br : Browser).

(** The entry a settled generation adds, read off the state its continuation
    leaves: the first entry of the new history when the continuation has
    ended in Success. *)
Definition settledEntry (w : World) (e : Event) : option HistoryItem :=
  match e with
  | EditSettled _ _ _ _ =>
      w' ← step br w e;
      if bool_decide (status (app w') = SUCCESS)
      then head (history (app w'))
      else None
  | _ => None
  end.

(** The entries added along a run, oldest first. *)
Fixpoint settledEntries (w : World) (evs : list Event) : list HistoryItem :=
  match evs with
  | [] => []
  | e :: evs' =>
      match step br w e with
      | Some w' => option_list (settledEntry w e) ++ settledEntries w' evs'
      | None => []
      end
  end.


End Settled.

(** A generation that is rejected, a retry that succeeds within the same
    millisecond, and a third generation one second later. *)
Definition retryAfterFailureTrace : list Event :=
  [ ImageSelected "data:a" "image/png"; GenerateClicked;
    EditSettled 0 (inl (mkJsError (Some "Service unavailable")))
      1700000000000 1700000000000;
    GenerateClicked;
    EditSettled 0 (inr "data:edited") 1700000000000 1700000000000;
    GenerateClicked;
    EditSettled 0 (inr "data:edited-2") 1700000001000 1700000001000 ].

(** * Properties *)

(** ** The pixel loop *)

Section ChromaKeyFacts.
Variables (minG domT : Z).

Lemma isGreenWith_spec (r g b : Z) :
  isGreenWith minG domT r g b = true ↔ g > r + domT ∧ g > b + domT ∧ g > minG.
Proof.
  unfold isGreenWith. rewrite !andb_true_iff, !Z.ltb_lt. lia.
Qed.

Lemma chromaBody_length (data : list Z) (i : nat) :
  length (chromaBody minG domT data i) = length data.
Proof.
  unfold chromaBody. destruct (isGreenAt _ _ _ _); [apply length_insert | done].
Qed.

Lemma chromaPrefix_length (data : list Z) (ks : list nat) :
  length (foldl (chromaBody minG domT) data ks) = length data.
Proof.
  revert data. induction ks as [|k ks IH]; intros data; simpl; [done|].
  by rewrite IH, chromaBody_length.
Qed.

(** Two buffers that agree on the colour channels of the pixel at [i]
    classify it alike. *)
Lemma isGreenAt_ext (d1 d2 : list Z) (i : nat) :
  d1 !! i = d2 !! i → d1 !! (i + 1)%nat = d2 !! (i + 1)%nat →
  d1 !! (i + 2)%nat = d2 !! (i + 2)%nat →
  isGreenAt minG domT d1 i = isGreenAt minG domT d2 i.
Proof. unfold isGreenAt. by intros -> -> ->. Qed.

(** The state of the buffer after the first [n] iterations: colour
    channels are as in the input, and the alpha of pixel [k] is zeroed
    exactly when [k < n] and the input pixel is key-coloured. *)
Lemma chromaPrefix_lookup (data : list Z) (n : nat) :
  let out := foldl (chromaBody minG domT) data ((λ k, 4 * k)%nat <$> seq 0 n) in
  (∀ j : nat, (j mod 4 ≠ 3)%nat → out !! j = data !! j) ∧
  (∀ k : nat, out !! (4 * k + 3)%nat =
     (λ a, if (k <? n)%nat && isGreenAt minG domT data (4 * k) then 0 else a)
       <$> data !! (4 * k + 3)%nat).
Proof.
  induction n as [|n [IHc IHa]]; cbv zeta in *.
  - simpl. split; [done|]. intros k. by destruct (data !! _).
  - rewrite seq_S, fmap_app, foldl_app. cbn [fmap list_fmap foldl].
    rewrite Nat.add_0_l.
    set (d := foldl _ _ _) in *.
    assert (Hg : isGreenAt minG domT d (4 * n) = isGreenAt minG domT data (4 * n)).
    { apply isGreenAt_ext; apply IHc.
      - replace (4 * n)%nat with (n * 4)%nat by lia.
        rewrite Nat.Div0.mod_mul. lia.
      - replace (4 * n + 1)%nat with (1 + n * 4)%nat by lia.
        rewrite Nat.Div0.mod_add. cbn. lia.
      - replace (4 * n + 2)%nat with (2 + n * 4)%nat by lia.
        rewrite Nat.Div0.mod_add. cbn. lia. }
    assert (Hlen : length d = length data) by apply chromaPrefix_length.
    unfold chromaBody. rewrite Hg.
    destruct (isGreenAt minG domT data (4 * n)) eqn:Hkey.
    + split.
      * intros j Hj. rewrite list_lookup_insert_ne; [by apply IHc|].
        intros <-. apply Hj.
        replace (4 * n + 3)%nat with (3 + n * 4)%nat by lia.
        by rewrite Nat.Div0.mod_add.
      * intros k. destruct (decide (k = n)) as [->|Hne].
        -- rewrite Hkey. replace (n <? S n)%nat with true
             by (symmetry; apply Nat.ltb_lt; lia).
           destruct (data !! (4 * n + 3)%nat) eqn:Hin.
           ++ rewrite list_lookup_insert_eq; [done|]. rewrite Hlen.
              by eapply lookup_lt_Some.
           ++ rewrite list_insert_ge.
              ** apply lookup_ge_None. rewrite Hlen.
                 by apply lookup_ge_None.
              ** rewrite Hlen. by apply lookup_ge_None.
        -- rewrite list_lookup_insert_ne by lia. rewrite IHa.
           replace (k <? S n)%nat with (k <? n)%nat; [done|].
           destruct (Nat.ltb_spec k n), (Nat.ltb_spec k (S n)); lia || done.
    + split; [done|]. intros k. rewrite IHa.
      destruct (decide (k = n)) as [->|Hne].
      * rewrite Hkey, !andb_false_r. done.
      * replace (k <? S n)%nat with (k <? n)%nat; [done|].
        destruct (Nat.ltb_spec k n), (Nat.ltb_spec k (S n)); lia || done.
Qed.

(** The whole loop, channel by channel. *)
Lemma chromaLoop_colour (data : list Z) (j : nat) :
  (j mod 4 ≠ 3)%nat → chromaLoop minG domT data !! j = data !! j.
Proof. intros Hj. by apply chromaPrefix_lookup. Qed.

Lemma chromaLoop_alpha (data : list Z) (k : nat) :
  chromaLoop minG domT data !! (4 * k + 3)%nat =
    (λ a, if isGreenAt minG domT data (4 * k) then 0 else a)
      <$> data !! (4 * k + 3)%nat.
Proof.
  unfold chromaLoop, loopIndices.
  destruct (chromaPrefix_lookup data ((length data + 3) / 4)) as [_ ->].
  destruct (data !! (4 * k + 3)%nat) eqn:Hin; [|done].
  apply lookup_lt_Some in Hin.
  replace (k <? (length data + 3) / 4)%nat with true; [done|].
  symmetry. apply Nat.ltb_lt.
  pose proof (Nat.div_mod_eq (length data + 3) 4) as Hd.
  pose proof (Nat.mod_upper_bound (length data + 3) 4). lia.
Qed.

Lemma chromaLoop_length (data : list Z) :
  length (chromaLoop minG domT data) = length data.
Proof. apply chromaPrefix_length. Qed.

Lemma chromaLoop_isGreenAt (data : list Z) (k : nat) :
  isGreenAt minG domT (chromaLoop minG domT data) (4 * k) =
  isGreenAt minG domT data (4 * k).
Proof.
  apply isGreenAt_ext; apply chromaLoop_colour.
  - replace (4 * k)%nat with (k * 4)%nat by lia.
    rewrite Nat.Div0.mod_mul. lia.
  - replace (4 * k + 1)%nat with (1 + k * 4)%nat by lia.
    rewrite Nat.Div0.mod_add. cbn. lia.
  - replace (4 * k + 2)%nat with (2 + k * 4)%nat by lia.
    rewrite Nat.Div0.mod_add. cbn. lia.
Qed.

Lemma chromaLoop_idempotent (data : list Z) :
  chromaLoop minG domT (chromaLoop minG domT data) = chromaLoop minG domT data.
Proof.
  apply list_eq. intros j.
  destruct (decide (j mod 4 = 3)%nat) as [Hj|Hj].
  - pose proof (Nat.div_mod_eq j 4) as Hd.
    replace j with (4 * (j / 4) + 3)%nat by lia.
    rewrite chromaLoop_alpha, chromaLoop_isGreenAt, chromaLoop_alpha.
    destruct (data !! _); [|done].
    cbn [fmap option_fmap option_map]. by destruct (isGreenAt _ _ _ _).
  - by rewrite chromaLoop_colour.
Qed.
End ChromaKeyFacts.

(** ** The resampler *)

Lemma resize_skip (br : Browser) (w h : Z) (tw th : option Z)
    (canvas : HTMLCanvasElement) :
  truthyNum tw && truthyNum th && (strictNe tw w || strictNe th h) = false →
  resize br w h tw th canvas = toDataURL br canvas (Some "image/png").
Proof. unfold resize. by intros ->. Qed.

Lemma processImageTransparency_resamples_eq (br : Browser)
    (base64Str : string) (tw th : Z) (img : ImageData) :
  loadImage br base64Str = Some img →
  getContext2d br (id_width img) (id_height img) = true →
  tw ≠ 0 → th ≠ 0 → tw ≠ id_width img ∨ th ≠ id_height img →
  processImageTransparency br base64Str (Some tw) (Some th)
  = inr (if getContext2d br tw th
         then toDataURL br
                (mkCanvas tw th
                   (drawImageScaled br
                      (mkCanvas (id_width img) (id_height img)
                         (chromaKey (id_data img))) tw th))
                (Some "image/png")
         else toDataURL br
                (mkCanvas (id_width img) (id_height img)
                   (chromaKey (id_data img))) None).
Proof.
  intros Himg Hctx Htw Hth Hne.
  unfold processImageTransparency, resize. rewrite Himg, Hctx. simpl.
  assert ((tw =? 0) = false) as -> by by apply Z.eqb_neq.
  assert ((th =? 0) = false) as -> by by apply Z.eqb_neq.
  assert (negb (tw =? id_width img) || negb (th =? id_height img) = true) as ->.
  { destruct Hne as [H|H]; apply Z.eqb_neq in H; rewrite H; simpl;
      [done | apply orb_true_r]. }
  done.
Qed.

(** ** The history cache *)

Lemma push_length (item : HistoryItem) (prev : list HistoryItem) :
  (length (push item prev) ≤ 10)%nat.
Proof. unfold push. rewrite length_take. lia. Qed.



(** ** Invariants of the event loop *)

Section OrchestratorFacts.
Context (br : Browser).

Lemma handleGenerate_settle_history (c : GenerateCall)
    (edit : JsError + string) (now1 now2 : Z) (s : AppState) :
  history (handleGenerate_settle br c edit now1 now2 s) =
    match generateChain br c edit with
    | inr finalImage => push (newHistoryItem c finalImage now1 now2) (history s)
    | inl _ => history s
    end.
Proof. unfold handleGenerate_settle. by destruct (generateChain br c edit). Qed.

Lemma handleGenerate_history (s : AppState) :
  history (handleGenerate s).1 = history s.
Proof.
  unfold handleGenerate.
  destruct (truthyStr (sourceImage s)); [|done].
  by destruct (sourceImage s).
Qed.

(** What an event does to the history: nothing, except that a settled edit
    pushes the entries it creates. *)
Lemma step_history (w w' : World) (e : Event) :
  step br w e = Some w' →
  history (app w') = foldr push (history (app w)) (created br w e).
Proof.
  destruct e; simpl; intros Hstep; simplify_option_eq; try done.
  - by destruct r.
  - unfold clickGenerate. destruct (generateDisabled (app w)); [done|].
    pose proof (handleGenerate_history (app w)) as Hh.
    by destruct (handleGenerate (app w)).
  - rewrite handleGenerate_settle_history.
    by destruct (generateChain br _ edit).
Qed.

Lemma step_history_bounded (w w' : World) (e : Event) :
  step br w e = Some w' →
  (length (history (app w)) ≤ 10)%nat → (length (history (app w')) ≤ 10)%nat.
Proof.
  intros Hstep Hlen. rewrite (step_history _ _ _ Hstep).
  destruct (created br w e) as [|item rest]; [done|]. apply push_length.
Qed.


Lemma created_thumbnail (w : World) (e : Event) :
  Forall (λ item, thumbnail item = generated item) (created br w e).
Proof.
  destruct e; simpl; try by constructor.
  destruct (inflight w !! k); [|by constructor].
  destruct (generateChain br _ edit); by repeat constructor.
Qed.

Lemma createdItems_thumbnail (evs : list Event) (w : World) :
  Forall (λ item, thumbnail item = generated item) (createdItems br w evs).
Proof.
  revert w. induction evs as [|e evs IH]; intros w; simpl; [by constructor|].
  destruct (step br w e); [|by constructor].
  apply Forall_app. split; [apply created_thumbnail | apply IH].
Qed.

End OrchestratorFacts.

Lemma take_app_take {A} (n : nat) (l k : list A) :
  take n (l ++ take n k) = take n (l ++ k).
Proof. rewrite !take_app, take_take. do 2 f_equal. lia. Qed.

Lemma run_history_exact (br : Browser) (evs : list Event) (w w' : World) :
  (length (history (app w)) ≤ 10)%nat →
  run br w evs = Some w' →
  history (app w')
  = take 10 (reverse (createdItems br w evs) ++ history (app w)).
Proof.
  revert w. induction evs as [|e evs IH]; intros w Hlen; simpl.
  - intros [= <-]. by rewrite take_ge.
  - destruct (step br w e) as [w1|] eqn:Hstep; simpl; [|done].
    intros Hrun. rewrite (IH w1); [|by eapply step_history_bounded|done].
    rewrite (step_history _ _ _ _ Hstep), reverse_app, <-(assoc_L (++)).
    assert (Hone : created br w e = [] ∨ ∃ x, created br w e = [x]).
    { destruct e; simpl; eauto.
      destruct (inflight w !! k); eauto.
      destruct (generateChain br _ edit); eauto. }
    destruct Hone as [-> | [x ->]]; [done|].
    simpl. unfold push. apply take_app_take.
Qed.

(** ** The entries read off the handler *)

Section SettledFacts.
Context (br : Browser).

Lemma settledEntry_created (w : World) (e : Event) :
  option_list (settledEntry br w e) = created br w e.
Proof.
  destruct e; try done. simpl.
  destruct (inflight w !! k) as [c|]; [|done]. simpl.
  unfold handleGenerate_settle.
  by destruct (generateChain br c edit).
Qed.

Lemma settledEntries_created (evs : list Event) (w : World) :
  settledEntries br w evs = createdItems br w evs.
Proof.
  revert w. induction evs as [|e evs IH]; intros w; simpl; [done|].
  destruct (step br w e); [|done]. by rewrite settledEntry_created, IH.
Qed.



Lemma run_history_settled (evs : list Event) (w : World) :
  run br initialWorld evs = Some w →
  history (app w) = take 10 (reverse (settledEntries br initialWorld evs)).
Proof.
  intros Hrun. rewrite settledEntries_created.
  rewrite (run_history_exact br evs initialWorld w); [|simpl; lia|done].
  simpl. by rewrite app_nil_r.
Qed.
End SettledFacts.

Lemma errorMessage_nonempty (e : JsError) : errorMessage e ≠ EmptyString.
Proof.
  unfold errorMessage. destruct e as [[[|a m]|]]; simpl; discriminate.
Qed.

(** * The claims *)

(** Scenario of the specification: a 2x1 buffer with one key-coloured and one
    grey pixel. *)
Example chromaKey_two_pixels :
  chromaKey [0; 255; 0; 255; 200; 200; 200; 255]
  = [0; 255; 0; 0; 200; 200; 200; 255].
Proof. reflexivity. Qed.

(** C1. For the pixel [(r, g, b, a)] at position [p] of the buffer, the loop
    classifies it as key exactly when [g > r + 10], [g > b + 10] and
    [g > 40]; the output buffer has the same length, the same three colour
    channels at [p], and alpha [0] when the pixel is key and [a] otherwise. *)
Theorem C1_chroma_key_per_pixel (data : list Z) (p : nat) (r g b a : Z) :
  data !! (4 * p)%nat = Some r →
  data !! (4 * p + 1)%nat = Some g →
  data !! (4 * p + 2)%nat = Some b →
  data !! (4 * p + 3)%nat = Some a →
  (isGreen r g b = true ↔ g > r + 10 ∧ g > b + 10 ∧ g > 40) ∧
  length (chromaKey data) = length data ∧
  chromaKey data !! (4 * p)%nat = Some r ∧
  chromaKey data !! (4 * p + 1)%nat = Some g ∧
  chromaKey data !! (4 * p + 2)%nat = Some b ∧
  chromaKey data !! (4 * p + 3)%nat = Some (if isGreen r g b then 0 else a).
Proof.
  intros Hr Hg Hb Ha. unfold chromaKey, isGreen.
  split; [apply isGreenWith_spec|].
  split; [apply chromaLoop_length|].
  repeat split.
  - rewrite chromaLoop_colour; [done|].
    replace (4 * p)%nat with (p * 4)%nat by lia.
    rewrite Nat.Div0.mod_mul. lia.
  - rewrite chromaLoop_colour; [done|].
    replace (4 * p + 1)%nat with (1 + p * 4)%nat by lia.
    rewrite Nat.Div0.mod_add. cbn. lia.
  - rewrite chromaLoop_colour; [done|].
    replace (4 * p + 2)%nat with (2 + p * 4)%nat by lia.
    rewrite Nat.Div0.mod_add. cbn. lia.
  - rewrite chromaLoop_alpha, Ha. unfold isGreenAt. by rewrite Hr, Hg, Hb.
Qed.

Lemma C1_chroma_key_per_pixel_witness :
  chromaKey [0; 255; 0; 255; 200; 200; 200; 255] !! 3%nat = Some 0 ∧
  chromaKey [0; 255; 0; 255; 200; 200; 200; 255] !! 7%nat = Some 255.
Proof.
  split.
  - exact (proj2 (proj2 (proj2 (proj2 (proj2
      (C1_chroma_key_per_pixel [0; 255; 0; 255; 200; 200; 200; 255] 0
         0 255 0 255 eq_refl eq_refl eq_refl eq_refl)))))).
  - exact (proj2 (proj2 (proj2 (proj2 (proj2
      (C1_chroma_key_per_pixel [0; 255; 0; 255; 200; 200; 200; 255] 1
         200 200 200 255 eq_refl eq_refl eq_refl eq_refl)))))).
Defined.

(** C7. The pixel loop is idempotent, for every buffer and for every choice
    of the two thresholds, in particular for those of the source. *)
Theorem C7_chroma_key_idempotent (minG domT : Z) (data : list Z) :
  chromaLoop minG domT (chromaLoop minG domT data) = chromaLoop minG domT data ∧
  chromaKey (chromaKey data) = chromaKey data.
Proof. split; apply chromaLoop_idempotent. Qed.

(** C6. When a target dimension is absent, or the target equals the size of
    the buffer, [resize] does not resample: its result is the PNG encoding of
    the canvas it was given, so whatever a decoder reads back from that
    encoding it reads back from the result. *)
Theorem C6_resize_identity (br : Browser) (w h : Z) (tw th : option Z)
    (canvas : HTMLCanvasElement) :
  (tw = None ∨ th = None) ∨ (tw = Some w ∧ th = Some h) →
  resize br w h tw th canvas = toDataURL br canvas (Some "image/png") ∧
  ∀ decode : string → option (list Z),
    decode (toDataURL br canvas (Some "image/png")) = Some (bitmap canvas) →
    decode (resize br w h tw th canvas) = Some (bitmap canvas).
Proof.
  intros Htarget.
  assert (Heq : resize br w h tw th canvas
                = toDataURL br canvas (Some "image/png")).
  { apply resize_skip. destruct Htarget as [[-> | ->] | [-> ->]]; simpl.
    - done.
    - by rewrite andb_false_r.
    - rewrite !Z.eqb_refl. apply andb_false_r. }
  split; [done|]. intros decode Hdec. by rewrite Heq.
Qed.

Lemma C6_resize_identity_witness :
  resize demoBrowser 2 1 (Some 2) (Some 1)
    (mkCanvas 2 1 [0; 255; 0; 0; 200; 200; 200; 255])
  = "data:image/png;base64,AAAA" ∧
  resize demoBrowser 2 1 None None
    (mkCanvas 2 1 [0; 255; 0; 0; 200; 200; 200; 255])
  = "data:image/png;base64,AAAA".
Proof.
  split.
  - exact (proj1 (C6_resize_identity demoBrowser 2 1 (Some 2) (Some 1)
      (mkCanvas 2 1 [0; 255; 0; 0; 200; 200; 200; 255])
      (or_intror (conj eq_refl eq_refl)))).
  - exact (proj1 (C6_resize_identity demoBrowser 2 1 None None
      (mkCanvas 2 1 [0; 255; 0; 0; 200; 200; 200; 255])
      (or_introl (or_introl eq_refl)))).
Defined.



(** C9. Whatever the state, selecting a source image sets the status to Idle,
    stores the image as the source and clears the generated image, the error
    and the analysis text. *)
Theorem C9_image_select_resets (br : Browser) (w : World) (base64 type : string) :
  let s := handleImageSelect base64 type (app w) in
  (app <$> step br w (ImageSelected base64 type)) = Some s ∧
  status s = IDLE ∧
  sourceImage s = Some base64 ∧
  generatedImage s = None ∧
  error s = None ∧
  analysis s = None.
Proof. done. Qed.

(** C10. Every entry that a successful generation puts in the history has
    its thumbnail equal to its generated image, which is the image the
    continuation stores as the current generated image: this holds of the
    entry the continuation of [handleGenerate] pushes, of every entry added
    along a run and of every entry of the history of a reachable state. *)
Theorem C10_thumbnail_is_generated (br : Browser) (evs : list Event)
    (w : World) :
  run br initialWorld evs = Some w →
  Forall (λ item, thumbnail item = generated item) (history (app w)) ∧
  Forall (λ item, thumbnail item = generated item)
    (settledEntries br initialWorld evs) ∧
  ∀ (c : GenerateCall) (edit : JsError + string) (finalImage : string)
    (now1 now2 : Z) (s : AppState),
    generateChain br c edit = inr finalImage →
    ∃ item,
      head (history (handleGenerate_settle br c edit now1 now2 s)) = Some item ∧
      generated item = finalImage ∧
      thumbnail item = finalImage ∧
      generatedImage (handleGenerate_settle br c edit now1 now2 s)
      = Some finalImage.
Proof.
  intros Hrun.
  assert (Hall : Forall (λ item, thumbnail item = generated item)
                   (settledEntries br initialWorld evs)).
  { rewrite settledEntries_created. apply createdItems_thumbnail. }
  split_and!.
  - rewrite (run_history_settled br evs w Hrun).
    apply Forall_take. by apply Forall_reverse.
  - done.
  - intros c edit finalImage now1 now2 s Hok.
    unfold handleGenerate_settle. rewrite Hok. simpl. by eexists.
Qed.

Lemma C10_thumbnail_is_generated_witness :
  Forall (λ item, thumbnail item = generated item)
    (history (app (default initialWorld
       (run demoBrowser initialWorld retryAfterFailureTrace)))).
Proof.
  refine (proj1 (C10_thumbnail_is_generated demoBrowser
    retryAfterFailureTrace _ _)); vm_compute; reflexivity.
Defined.

(** C2, as stated, fails: the source is changed while the edit call is
    pending, and when the call resolves its result is applied all the same.
    The state changes to Success, the generated image is set, and the history
    gains an entry for the earlier source, while the current source is the
    later one. *)
Lemma C2_stale_result_is_applied :
  (sourceImage ∘ app <$> run demoBrowser initialWorld reselectTrace)
    = Some (Some "data:b") ∧
  (app <$> run demoBrowser initialWorld (reselectTrace ++ [lateResult]))
    ≠ (app <$> run demoBrowser initialWorld reselectTrace) ∧
  (status ∘ app <$> run demoBrowser initialWorld (reselectTrace ++ [lateResult]))
    = Some SUCCESS ∧
  (generatedImage ∘ app
     <$> run demoBrowser initialWorld (reselectTrace ++ [lateResult]))
    = Some (Some "data:image/png;base64,AAAA") ∧
  (fmap original ∘ history ∘ app
     <$> run demoBrowser initialWorld (reselectTrace ++ [lateResult]))
    = Some ["data:a"].
Proof. vm_compute. repeat split; discriminate || reflexivity. Qed.

(** C2, amended. No token is compared: when a pending edit call settles, its
    continuation runs on the state of that moment, whatever the current
    source is.  On success the status becomes Success, the result becomes the
    generated image and an entry for the source captured at request time is
    pushed; on failure the status becomes Error and the message is stored.
    The current source is not changed either way. *)
Theorem C2_settled_result_always_applied (br : Browser) (w : World) (k : nat)
    (c : GenerateCall) (edit : JsError + string) (now1 now2 : Z) :
  inflight w !! k = Some c →
  ∃ w', step br w (EditSettled k edit now1 now2) = Some w' ∧
    inflight w' = delete k (inflight w) ∧
    sourceImage (app w') = sourceImage (app w) ∧
    match generateChain br c edit with
    | inr finalImage =>
        status (app w') = SUCCESS ∧
        generatedImage (app w') = Some finalImage ∧
        history (app w')
          = push (newHistoryItem c finalImage now1 now2) (history (app w)) ∧
        original (newHistoryItem c finalImage now1 now2) = g_sourceImage c
    | inl e =>
        status (app w') = ERROR ∧
        error (app w') = Some (errorMessage e)
    end.
Proof.
  intros Hk. eexists. simpl. rewrite Hk. simpl. split; [done|].
  unfold handleGenerate_settle.
  by destruct (generateChain br c edit).
Qed.

Lemma C2_settled_result_always_applied_witness :
  ∃ w', step demoBrowser
          (default initialWorld (run demoBrowser initialWorld reselectTrace))
          lateResult = Some w' ∧
        status (app w') = SUCCESS.
Proof.
  destruct (C2_settled_result_always_applied demoBrowser
    (default initialWorld (run demoBrowser initialWorld reselectTrace)) 0
    (mkGenerateCall "data:a" "image/png"
       (from_option preset_text EmptyString (PRESETS !! 0%nat)) false None)
    (inr "data:edited-a") 1700000000000 1700000000000 eq_refl)
    as (w' & Hstep & _ & _ & Hok).
  exists w'. split; [exact Hstep | exact (proj1 Hok)].
Defined.

(** C4, as stated, fails: after a successful generation a second attempt is
    rejected by the edit service; the generated image shown before the
    attempt is gone afterwards. *)
Lemma C4_previous_image_is_cleared :
  (generatedImage ∘ app <$> run demoBrowser initialWorld firstSuccessTrace)
    = Some (Some "data:image/png;base64,AAAA") ∧
  (generatedImage ∘ app
     <$> run demoBrowser initialWorld (firstSuccessTrace ++ failedRetry))
    = Some None ∧
  (status ∘ app
     <$> run demoBrowser initialWorld (firstSuccessTrace ++ failedRetry))
    = Some ERROR.
Proof. vm_compute. done. Qed.

(** C4, amended. A generation attempt starts by setting the status to
    Processing and clearing the generated image, leaving the history as it
    is.  The awaited chain is rejected exactly when the edit call is
    rejected, the edited image does not load, or the canvas used for keying
    yields no 2D context.  The continuation then, on whatever state it finds,
    sets the status to Error and stores a non-empty message (the error's own,
    or "Failed to process image."), and changes neither the history nor the
    generated image; so with nothing in between the image cleared at the
    start stays absent and the history is as before the attempt.  A failure
    of the resampling step, no 2D context for the canvas of the target size,
    is not an error: the attempt ends in Success with the keyed image at its
    decoded size, and an entry is pushed to the history. *)
Theorem C4_failed_generation (br : Browser) (s s1 : AppState)
    (c : GenerateCall) (edit : JsError + string) (now1 now2 : Z) :
  handleGenerate s = (s1, Some c) →
  (status s1 = PROCESSING ∧ generatedImage s1 = None ∧ history s1 = history s) ∧
  ((∃ e, generateChain br c edit = inl e) ↔
     (∃ e, edit = inl e) ∨
     (∃ resultBase64, edit = inr resultBase64 ∧
        (loadImage br resultBase64 = None ∨
         ∃ img, loadImage br resultBase64 = Some img ∧
           getContext2d br (id_width img) (id_height img) = false))) ∧
  (∀ (e : JsError) (s2 : AppState),
     generateChain br c edit = inl e →
     let s3 := handleGenerate_settle br c edit now1 now2 s2 in
     status s3 = ERROR ∧
     error s3 = Some (errorMessage e) ∧
     errorMessage e ≠ EmptyString ∧
     history s3 = history s2 ∧
     generatedImage s3 = generatedImage s2) ∧
  (∀ e : JsError,
     generateChain br c edit = inl e →
     generatedImage (handleGenerate_settle br c edit now1 now2 s1) = None ∧
     history (handleGenerate_settle br c edit now1 now2 s1) = history s) ∧
  (∀ (resultBase64 : string) (img : ImageData) (tw th : Z) (s2 : AppState),
     edit = inr resultBase64 →
     loadImage br resultBase64 = Some img →
     getContext2d br (id_width img) (id_height img) = true →
     g_originalDims c = Some (tw, th) →
     tw ≠ 0 → th ≠ 0 → tw ≠ id_width img ∨ th ≠ id_height img →
     getContext2d br tw th = false →
     let keyed :=
       mkCanvas (id_width img) (id_height img) (chromaKey (id_data img)) in
     let s3 := handleGenerate_settle br c edit now1 now2 s2 in
     status s3 = SUCCESS ∧
     generatedImage s3 = Some (toDataURL br keyed None) ∧
     history s3
     = push (newHistoryItem c (toDataURL br keyed None) now1 now2) (history s2)).
Proof.
  intros Hstart.
  assert (Hs1 : status s1 = PROCESSING ∧ generatedImage s1 = None
                ∧ history s1 = history s).
  { unfold handleGenerate in Hstart.
    destruct (truthyStr (sourceImage s)); simpl in Hstart; [|congruence].
    destruct (sourceImage s); [|congruence].
    by injection Hstart as <- _. }
  assert (Hsettle : ∀ (e : JsError) (s2 : AppState),
     generateChain br c edit = inl e →
     let s3 := handleGenerate_settle br c edit now1 now2 s2 in
     status s3 = ERROR ∧ error s3 = Some (errorMessage e) ∧
     errorMessage e ≠ EmptyString ∧ history s3 = history s2 ∧
     generatedImage s3 = generatedImage s2).
  { intros e s2 Hfail. unfold handleGenerate_settle. rewrite Hfail. simpl.
    repeat split. apply errorMessage_nonempty. }
  split; [done|]. split; [|split; [done|split]].
  - unfold generateChain, processImageTransparency.
    destruct edit as [e|resultBase64].
    + split; [intros _; left; by exists e | intros _; by exists e].
    + destruct (loadImage br resultBase64) as [img|] eqn:Himg.
      * destruct (getContext2d br (id_width img) (id_height img)) eqn:Hctx.
        -- split; [by intros [e ?]|].
           intros [[e ?] | (r & [= <-] & [? | (img' & ? & ?)])]; congruence.
        -- split; [|by eexists]. intros _. right. exists resultBase64.
           split; [done|]. right. by exists img.
      * split; [|by eexists]. intros _. right. exists resultBase64.
        split; [done|]. by left.
  - intros e Hfail. destruct (Hsettle e s1 Hfail) as (_ & _ & _ & Hh & Hg).
    destruct Hs1 as (_ & Hg1 & Hh1). split; congruence.
  - intros resultBase64 img tw th s2 -> Himg Hctx Hdims Htw Hth Hne Hctx2.
    cbv zeta. unfold handleGenerate_settle, generateChain.
    rewrite Hdims. simpl.
    rewrite (processImageTransparency_resamples_eq br resultBase64 tw th img)
      by done.
    rewrite Hctx2. done.
Qed.

Lemma C4_failed_generation_witness :
  status (handleGenerate_settle probeBrowser
    (mkGenerateCall "data:a" "image/png" "p" false None)
    (inl (mkJsError (Some "Service unavailable"))) 5 5
    (setGeneratedImage (Some "data:shown") initialState)) = ERROR ∧
  status (handleGenerate_settle probeBrowser
    (mkGenerateCall "data:a" "image/png" "p" false (Some (8000, 2)))
    (inr "data:edited") 5 5
    (setGeneratedImage (Some "data:shown") initialState)) = SUCCESS.
Proof.
  split.
  - exact (proj1 (proj1 (proj2 (proj2 (C4_failed_generation probeBrowser
      (setSourceImage (Some "data:a") (setPrompt "p" initialState))
      (setGeneratedImage None (setError None (setStatus PROCESSING
         (setSourceImage (Some "data:a") (setPrompt "p" initialState)))))
      (mkGenerateCall "data:a" "image/png" "p" false None)
      (inl (mkJsError (Some "Service unavailable"))) 5 5 eq_refl)))
      (mkJsError (Some "Service unavailable"))
      (setGeneratedImage (Some "data:shown") initialState) eq_refl)).
  - refine (proj1 (proj2 (proj2 (proj2 (proj2 (C4_failed_generation
      probeBrowser
      (setSourceImage (Some "data:a")
         (setOriginalDims (Some (8000, 2)) (setPrompt "p" initialState)))
      (setGeneratedImage None (setError None (setStatus PROCESSING
         (setSourceImage (Some "data:a")
            (setOriginalDims (Some (8000, 2)) (setPrompt "p" initialState))))))
      (mkGenerateCall "data:a" "image/png" "p" false (Some (8000, 2)))
      (inr "data:edited") 5 5 eq_refl))))
      "data:edited" (mkImageData 2 1 [0; 255; 0; 255; 200; 200; 200; 255])
      8000 2 (setGeneratedImage (Some "data:shown") initialState)
      eq_refl eq_refl eq_refl eq_refl _ _ _ eq_refl));
      [lia | lia | left; simpl; lia].
Defined.




(** C8, as stated, fails: the request is refused only while the status is
    Processing.  Selecting another source while an edit call is pending
    resets the status to Idle, and the next request starts a second call
    beside the first. *)
Lemma C8_concurrent_edits :
  (length ∘ inflight <$> run demoBrowser initialWorld reselectTrace)
    = Some 1%nat ∧
  (length ∘ inflight
     <$> run demoBrowser initialWorld (reselectTrace ++ [GenerateClicked]))
    = Some 2%nat ∧
  (status ∘ app
     <$> run demoBrowser initialWorld (reselectTrace ++ [GenerateClicked]))
    = Some PROCESSING.
Proof. vm_compute. done. Qed.

(** C8, amended. A generate request changes nothing (no state update, no
    edit call) when the source image is [null] or empty, and when the status
    is Processing; [handleGenerate] itself returns at once when the source is
    [null] or empty. *)
Theorem C8_generate_noop (br : Browser) (w : World) :
  truthyStr (sourceImage (app w)) = false ∨ status (app w) = PROCESSING →
  step br w GenerateClicked = Some w ∧
  (truthyStr (sourceImage (app w)) = false →
   handleGenerate (app w) = (app w, None)).
Proof.
  intros Hgate. split.
  - simpl. unfold clickGenerate, generateDisabled.
    destruct Hgate as [-> | ->]; [done|].
    by rewrite bool_decide_eq_true_2, orb_true_r.
  - intros Hsrc. unfold handleGenerate. by rewrite Hsrc.
Qed.

Lemma C8_generate_noop_witness :
  step demoBrowser initialWorld GenerateClicked = Some initialWorld ∧
  step demoBrowser
    (mkWorld (setStatus PROCESSING (setSourceImage (Some "data:a") initialState))
       [mkGenerateCall "data:a" "image/png" "p" false None] [] [])
    GenerateClicked
  = Some (mkWorld
       (setStatus PROCESSING (setSourceImage (Some "data:a") initialState))
       [mkGenerateCall "data:a" "image/png" "p" false None] [] []).
Proof.
  split.
  - exact (proj1 (C8_generate_noop demoBrowser initialWorld
                    (or_introl eq_refl))).
  - exact (proj1 (C8_generate_noop demoBrowser
      (mkWorld
         (setStatus PROCESSING (setSourceImage (Some "data:a") initialState))
         [mkGenerateCall "data:a" "image/png" "p" false None] [] [])
      (or_intror eq_refl))).
Defined.

(** * Further properties of the code *)

(** ** The pixel loop *)

Lemma chromaPrefix_Forall (P : Z → Prop) (minG domT : Z) (ks : list nat)
    (data : list Z) :
  P 0 → Forall P data → Forall P (foldl (chromaBody minG domT) data ks).
Proof.
  intros H0. revert data.
  induction ks as [|k ks IH]; intros data Hdata; simpl; [done|].
  apply IH. unfold chromaBody.
  destruct (isGreenAt minG domT data k); [|done].
  by apply Forall_insert.
Qed.

(** X1. A buffer of bytes stays a buffer of bytes: if every channel value of
    the input lies in [0, 255], so does every channel value of the output. *)
Theorem chromaKey_keeps_bytes (data : list Z) :
  Forall (λ v, 0 ≤ v ≤ 255) data →
  Forall (λ v, 0 ≤ v ≤ 255) (chromaKey data).
Proof. intros Hdata. apply chromaPrefix_Forall; [lia | done]. Qed.

Lemma chromaKey_keeps_bytes_witness :
  Forall (λ v, 0 ≤ v ≤ 255) (chromaKey [0; 255; 0; 255; 200; 200; 200; 255]).
Proof.
  apply chromaKey_keeps_bytes.
  repeat (constructor; [lia|]). constructor.
Defined.

(** X2. Pixels are processed independently: the loop applied to two buffers
    laid end to end, the first made of whole pixels, gives the two results
    laid end to end. *)
Theorem chromaLoop_app (minG domT : Z) (d1 d2 : list Z) :
  (length d1 mod 4 = 0)%nat →
  chromaLoop minG domT (d1 ++ d2)
  = chromaLoop minG domT d1 ++ chromaLoop minG domT d2.
Proof.
  intros Hmod.
  pose proof (Nat.div_mod_eq (length d1) 4) as Hdiv.
  set (m := (length d1 / 4)%nat) in *.
  assert (Hlen : length d1 = (4 * m)%nat) by lia.
  assert (Hlen' : length (chromaLoop minG domT d1) = (4 * m)%nat)
    by (by rewrite chromaLoop_length).
  apply list_eq. intros j.
  destruct (decide (j mod 4 = 3)%nat) as [Hj|Hj].
  - pose proof (Nat.div_mod_eq j 4) as Hd.
    set (k := (j / 4)%nat) in *.
    replace j with (4 * k + 3)%nat by lia.
    rewrite chromaLoop_alpha.
    destruct (decide (k < m)%nat) as [Hk|Hk].
    + rewrite !lookup_app_l by lia. rewrite chromaLoop_alpha.
      replace (isGreenAt minG domT (d1 ++ d2) (4 * k))
        with (isGreenAt minG domT d1 (4 * k)); [done|].
      apply isGreenAt_ext; by rewrite !lookup_app_l by lia.
    + rewrite !lookup_app_r by lia. rewrite Hlen, Hlen'.
      replace (4 * k + 3 - 4 * m)%nat with (4 * (k - m) + 3)%nat by lia.
      rewrite chromaLoop_alpha.
      replace (isGreenAt minG domT (d1 ++ d2) (4 * k))
        with (isGreenAt minG domT d2 (4 * (k - m))); [done|].
      unfold isGreenAt. rewrite !lookup_app_r by lia. rewrite Hlen.
      replace (4 * k - 4 * m)%nat with (4 * (k - m))%nat by lia.
      replace (4 * k + 1 - 4 * m)%nat with (4 * (k - m) + 1)%nat by lia.
      replace (4 * k + 2 - 4 * m)%nat with (4 * (k - m) + 2)%nat by lia.
      done.
  - rewrite chromaLoop_colour by done.
    destruct (decide (j < 4 * m)%nat) as [Hlt|Hge].
    + rewrite !lookup_app_l by lia. by rewrite chromaLoop_colour.
    + rewrite !lookup_app_r by lia. rewrite Hlen, Hlen'.
      rewrite chromaLoop_colour; [done|].
      replace j with ((j - 4 * m) + m * 4)%nat in Hj by lia.
      by rewrite Nat.Div0.mod_add in Hj.
Qed.

Lemma chromaLoop_app_witness :
  chromaKey ([0; 255; 0; 255] ++ [200; 200; 200; 255])
  = chromaKey [0; 255; 0; 255] ++ chromaKey [200; 200; 200; 255].
Proof. apply chromaLoop_app. reflexivity. Defined.

(** X3. No visible key-coloured pixel is left: in the output, a pixel that
    the test classifies as key has alpha 0. *)
Theorem chromaLoop_no_visible_key (minG domT : Z) (data : list Z) (k : nat)
    (a : Z) :
  chromaLoop minG domT data !! (4 * k + 3)%nat = Some a →
  isGreenAt minG domT (chromaLoop minG domT data) (4 * k) = true →
  a = 0.
Proof.
  rewrite chromaLoop_isGreenAt, chromaLoop_alpha. intros Ha Hkey.
  rewrite Hkey in Ha. destruct (data !! _); simpl in Ha; congruence.
Qed.

Lemma chromaLoop_no_visible_key_witness :
  chromaKey [0; 255; 0; 255; 200; 200; 200; 255] !! 3%nat = Some 0 ∧
  isGreenAt minGreen dominanceThreshold
    (chromaKey [0; 255; 0; 255; 200; 200; 200; 255]) 0 = true ∧
  (0 : Z) = 0.
Proof.
  split; [reflexivity|]. split; [reflexivity|].
  exact (chromaLoop_no_visible_key minGreen dominanceThreshold
    [0; 255; 0; 255; 200; 200; 200; 255] 0 0 eq_refl eq_refl).
Defined.

(** X4. The buffers the loop leaves as they are are exactly those in which
    every key-coloured pixel is already fully transparent. *)
Theorem chromaLoop_fixpoint_iff (minG domT : Z) (data : list Z) :
  chromaLoop minG domT data = data ↔
  ∀ (k : nat) (a : Z),
    data !! (4 * k + 3)%nat = Some a →
    isGreenAt minG domT data (4 * k) = true → a = 0.
Proof.
  split.
  - intros Hfix k a Ha Hkey.
    pose proof (chromaLoop_alpha minG domT data k) as Halpha.
    rewrite Hfix, Ha, Hkey in Halpha. simpl in Halpha. congruence.
  - intros Hdone. apply list_eq. intros j.
    destruct (decide (j mod 4 = 3)%nat) as [Hj|Hj]; [|by apply chromaLoop_colour].
    pose proof (Nat.div_mod_eq j 4) as Hd.
    replace j with (4 * (j / 4) + 3)%nat by lia.
    rewrite chromaLoop_alpha.
    destruct (data !! (4 * (j / 4) + 3)%nat) as [a|] eqn:Ha; [|done].
    cbn [fmap option_fmap option_map].
    destruct (isGreenAt minG domT data (4 * (j / 4))) eqn:Hkey; [|done].
    by rewrite (Hdone _ _ Ha Hkey).
Qed.

(** ** The pipeline of [processImageTransparency] *)

(** X5. The promise is rejected in exactly two ways: the image does not load
    ("Failed to process mask transparency"), or it loads and the canvas
    yields no 2D context ("Canvas context not available"). *)
Theorem processImageTransparency_rejects (br : Browser) (base64Str : string)
    (tw th : option Z) (e : JsError) :
  processImageTransparency br base64Str tw th = inl e →
  (loadImage br base64Str = None ∧
   message e = Some "Failed to process mask transparency") ∨
  (∃ img, loadImage br base64Str = Some img ∧
     getContext2d br (id_width img) (id_height img) = false ∧
     message e = Some "Canvas context not available").
Proof.
  unfold processImageTransparency.
  destruct (loadImage br base64Str) as [img|]; [|intros [= <-]; by left].
  destruct (getContext2d br (id_width img) (id_height img)) eqn:Hctx; [done|].
  intros [= <-]. right. by exists img.
Qed.

Lemma processImageTransparency_rejects_witness :
  (loadImage probeBrowser "" = None ∧
   message (mkJsError (Some "Failed to process mask transparency"))
   = Some "Failed to process mask transparency") ∨
  (∃ img, loadImage probeBrowser "" = Some img ∧
     getContext2d probeBrowser (id_width img) (id_height img) = false ∧
     message (mkJsError (Some "Failed to process mask transparency"))
     = Some "Canvas context not available").
Proof.
  exact (processImageTransparency_rejects probeBrowser "" None None
           (mkJsError (Some "Failed to process mask transparency")) eq_refl).
Defined.

(** X6. Keying comes before scaling.  When the image loads, both target
    dimensions are non-zero and differ from the size of the image, the
    promise resolves with the PNG encoding of the keyed canvas scaled to the
    target size; if the second canvas yields no context, it resolves with the
    keyed canvas at its own size, encoded without a MIME type argument. *)
Theorem processImageTransparency_resamples (br : Browser) (base64Str : string)
    (tw th : Z) (img : ImageData) :
  loadImage br base64Str = Some img →
  getContext2d br (id_width img) (id_height img) = true →
  tw ≠ 0 → th ≠ 0 → tw ≠ id_width img ∨ th ≠ id_height img →
  let keyed :=
    mkCanvas (id_width img) (id_height img) (chromaKey (id_data img)) in
  processImageTransparency br base64Str (Some tw) (Some th)
  = inr (if getContext2d br tw th
         then toDataURL br (mkCanvas tw th (drawImageScaled br keyed tw th))
                (Some "image/png")
         else toDataURL br keyed None).
Proof.
  intros Himg Hctx Htw Hth Hne keyed.
  unfold processImageTransparency, resize. rewrite Himg, Hctx. simpl.
  assert ((tw =? 0) = false) as -> by by apply Z.eqb_neq.
  assert ((th =? 0) = false) as -> by by apply Z.eqb_neq.
  assert (negb (tw =? id_width img) || negb (th =? id_height img) = true) as ->.
  { destruct Hne as [H|H]; apply Z.eqb_neq in H; rewrite H; simpl;
      [done | apply orb_true_r]. }
  done.
Qed.

Lemma processImageTransparency_resamples_witness :
  processImageTransparency probeBrowser "data:x" (Some 4) (Some 2)
    = inr "canvas 4x2" ∧
  processImageTransparency probeBrowser "data:x" (Some 8000) (Some 2)
    = inr "canvas 2x1".
Proof.
  split.
  - refine (processImageTransparency_resamples probeBrowser "data:x" 4 2
      (mkImageData 2 1 [0; 255; 0; 255; 200; 200; 200; 255])
      eq_refl eq_refl _ _ _); [lia | lia | left; simpl; lia].
  - refine (processImageTransparency_resamples probeBrowser "data:x" 8000 2
      (mkImageData 2 1 [0; 255; 0; 255; 200; 200; 200; 255])
      eq_refl eq_refl _ _ _); [lia | lia | left; simpl; lia].
Defined.

(** X7. A target dimension that is missing or zero switches resampling off,
    as does a target equal to the size of the image: the promise resolves
    with the PNG encoding of the keyed canvas at the size of the image. *)
Theorem processImageTransparency_keeps_size (br : Browser)
    (base64Str : string) (tw th : option Z) (img : ImageData) :
  loadImage br base64Str = Some img →
  getContext2d br (id_width img) (id_height img) = true →
  tw = None ∨ tw = Some 0 ∨ th = None ∨ th = Some 0 ∨
    (tw = Some (id_width img) ∧ th = Some (id_height img)) →
  processImageTransparency br base64Str tw th
  = inr (toDataURL br
           (mkCanvas (id_width img) (id_height img) (chromaKey (id_data img)))
           (Some "image/png")).
Proof.
  intros Himg Hctx Htarget.
  unfold processImageTransparency. rewrite Himg, Hctx. cbv zeta.
  f_equal. apply resize_skip.
  destruct Htarget as [-> | [-> | [-> | [-> | [-> ->]]]]]; simpl; try done.
  - by rewrite andb_false_r.
  - by rewrite andb_false_r.
  - rewrite !Z.eqb_refl. apply andb_false_r.
Qed.

Lemma processImageTransparency_keeps_size_witness :
  processImageTransparency probeBrowser "data:x" (Some 0) (Some 7)
    = inr "canvas 2x1".
Proof.
  exact (processImageTransparency_keeps_size probeBrowser "data:x"
    (Some 0) (Some 7) (mkImageData 2 1 [0; 255; 0; 255; 200; 200; 200; 255])
    eq_refl eq_refl (or_intror (or_introl eq_refl))).
Defined.

(** X8. A settled generation ends in Success or in Error, and in Success
    exactly when the edit call resolved, its result loads as an image and
    the canvas yields a 2D context; in Error the history is left as it was. *)
Theorem handleGenerate_settle_outcome (br : Browser) (c : GenerateCall)
    (edit : JsError + string) (now1 now2 : Z) (s : AppState) :
  let s' := handleGenerate_settle br c edit now1 now2 s in
  (status s' = SUCCESS ∨ status s' = ERROR) ∧
  (status s' = SUCCESS ↔
     ∃ resultBase64 img,
       edit = inr resultBase64 ∧ loadImage br resultBase64 = Some img ∧
       getContext2d br (id_width img) (id_height img) = true) ∧
  (status s' = ERROR → history s' = history s).
Proof.
  unfold handleGenerate_settle, generateChain.
  destruct edit as [e|resultBase64]; simpl.
  - split; [by right|]. split; [|done].
    split; [done|]. by intros (? & ? & ? & _).
  - unfold processImageTransparency.
    destruct (loadImage br resultBase64) as [img|] eqn:Himg; simpl.
    + destruct (getContext2d br (id_width img) (id_height img)) eqn:Hctx; simpl.
      * split; [by left|]. split; [|done].
        split; [|done]. intros _. by exists resultBase64, img.
      * split; [by right|]. split; [|done].
        split; [done|]. intros (r & img' & [= <-] & Himg' & Hctx').
        congruence.
    + split; [by right|]. split; [|done].
      split; [done|]. intros (r & img' & [= <-] & Himg' & _). congruence.
Qed.

(** ** Consistency of the state in every reachable world *)

Section ConsistencyFacts.
Context (br : Browser).

Lemma run_invariant (P : World → Prop) :
  (∀ w e w', P w → step br w e = Some w' → P w') →
  ∀ evs w w', P w → run br w evs = Some w' → P w'.
Proof.
  intros Hstep. induction evs as [|e evs IH]; intros w w' Hw; simpl.
  - by intros [= <-].
  - destruct (step br w e) as [w1|] eqn:He; simpl; [|done].
    apply IH. by eapply Hstep.
Qed.

Lemma preset_text_listed (k : nat) (p : PresetPrompt) :
  PRESETS !! k = Some p → preset_text p ∈ presetTexts.
Proof.
  intros Hk. apply list_elem_of_fmap_2. by eapply list_elem_of_lookup_2.
Qed.

Lemma truthyStr_Some (v : string) :
  truthyStr (Some v) = true → v ≠ EmptyString.
Proof. by destruct v. Qed.

Lemma consistent_initial : consistent initialWorld.
Proof.
  unfold consistent. simpl. repeat split; try done; try by constructor.
Qed.

Lemma step_consistent (w w' : World) (e : Event) :
  consistent w → step br w e = Some w' → consistent w'.
Proof.
  destruct w as [[st src dims mime gen pr pro err an hist fv] infl ld anl].
  unfold consistent. simpl.
  intros (Hquiet & Hsucc & Herr & Hproc & Hnone & Hprompt & Hcalls & Hhist) Hstep.
  destruct e; simpl in Hstep; simplify_option_eq; simpl.
  - (* ImageSelected *) intuition (eauto; congruence).
  - (* ImageLoaded *) intuition (eauto; congruence).
  - (* AnalysisSettled *) destruct r; simpl; intuition (eauto; congruence).
  - (* GenerateClicked *)
    unfold clickGenerate, generateDisabled, handleGenerate. simpl.
    destruct (truthyStr src) eqn:Hsrc; simpl; [|intuition (eauto; congruence)].
    case_bool_decide; simpl; [intuition (eauto; congruence)|].
    destruct src as [src|]; [|done]. simpl.
    apply truthyStr_Some in Hsrc.
    split_and!; try done.
    + intros _. by destruct infl.
    + apply Forall_app. split; [done|]. apply Forall_singleton. by simpl.
  - (* EditSettled *)
    assert (Hc : g_sourceImage H ≠ EmptyString ∧ g_prompt H ∈ presetTexts).
    { eapply Forall_lookup_1 in Hcalls; done. }
    assert (Hsrc : src ≠ None).
    { intros ->. destruct Hnone as (_ & -> & _); done. }
    unfold handleGenerate_settle.
    destruct (generateChain br H edit) as [e|finalImage]; simpl.
    + split_and!; try done.
      * by intros [|].
      * intros _. eexists. split; [done|]. apply errorMessage_nonempty.
      * by apply Forall_delete.
    + split_and!; try done.
      * by intros [|].
      * by apply Forall_delete.
      * unfold push. apply Forall_take. by constructor.
  - (* HistoryClicked *)
    split_and!; try done; by intros [|].
  - (* PresetClicked *)
    pose proof (preset_text_listed _ _ Heqo). intuition (eauto; congruence).
  - (* UseProClicked *) intuition (eauto; congruence).
  - (* FullViewSet *) intuition (eauto; congruence).
Qed.

Lemma run_consistent (evs : list Event) (w : World) :
  run br initialWorld evs = Some w → consistent w.
Proof.
  apply (run_invariant consistent).
  - intros w0 e w1. apply step_consistent.
  - apply consistent_initial.
Qed.
End ConsistencyFacts.

(** ** Reachable worlds *)

(** X9. In every reachable state the status agrees with what is stored:
    Idle and Processing come with no generated image and no error, Success
    with a generated image, Error with a non-empty message. *)
Theorem reachable_status_consistent (br : Browser) (evs : list Event)
    (w : World) :
  run br initialWorld evs = Some w →
  (status (app w) = IDLE ∨ status (app w) = PROCESSING →
     generatedImage (app w) = None ∧ error (app w) = None) ∧
  (status (app w) = SUCCESS → is_Some (generatedImage (app w))) ∧
  (status (app w) = ERROR →
     ∃ m, error (app w) = Some m ∧ m ≠ EmptyString).
Proof.
  intros Hrun. destruct (run_consistent br evs w Hrun) as (? & ? & ? & _).
  done.
Qed.

Lemma reachable_status_consistent_witness :
  is_Some (generatedImage (app
    (default initialWorld (run demoBrowser initialWorld firstSuccessTrace)))).
Proof.
  refine (proj1 (proj2 (reachable_status_consistent demoBrowser
    firstSuccessTrace _ _)) _); vm_compute; reflexivity.
Defined.

(** X10. What is on screen in a reachable state.  While the spinner shows,
    the generate button is disabled, no error box is shown and an edit call
    is pending; in state Error the error box shows a non-empty message; in
    state Idle the placeholder shows and there is no error box. *)
Theorem reachable_view (br : Browser) (evs : list Event) (w : World) :
  run br initialWorld evs = Some w →
  (mainView (app w) = Spinner →
     generateDisabled (app w) = true ∧ errorBox (app w) = None ∧
     inflight w ≠ []) ∧
  (status (app w) = ERROR →
     ∃ m, errorBox (app w) = Some m ∧ m ≠ EmptyString) ∧
  (status (app w) = IDLE →
     mainView (app w) = WaitingForInput ∧ errorBox (app w) = None).
Proof.
  intros Hrun.
  destruct (run_consistent br evs w Hrun) as (Hquiet & _ & Herr & Hproc & _).
  unfold mainView, errorBox, generateDisabled. split_and!.
  - case_bool_decide as Hst.
    + intros _. destruct (Hquiet (or_intror Hst)) as [_ ->].
      split_and!; [apply orb_true_r | done | by apply Hproc].
    + destruct (generatedImage (app w)) as [src|]; [|done].
      by destruct (truthyStr (Some src)).
  - intros Hst. destruct (Herr Hst) as (m & -> & Hm).
    exists m. by destruct m.
  - intros Hst. destruct (Hquiet (or_introl Hst)) as [-> ->].
    rewrite Hst. done.
Qed.

Lemma reachable_view_witness :
  ∃ m, errorBox (app (default initialWorld
         (run demoBrowser initialWorld (firstSuccessTrace ++ failedRetry))))
       = Some m ∧ m ≠ EmptyString.
Proof.
  refine (proj1 (proj2 (reachable_view demoBrowser
    (firstSuccessTrace ++ failedRetry) _ _)) _); vm_compute; reflexivity.
Defined.

(** X11. The prompt is always the text of one of the two modes, so one mode
    button is marked selected; the same holds of the prompt of every pending
    edit call and of every history entry. *)
Theorem reachable_prompts_are_presets (br : Browser) (evs : list Event)
    (w : World) :
  run br initialWorld evs = Some w →
  (∃ p, p ∈ PRESETS ∧ presetSelected (app w) p = true) ∧
  Forall (λ c, g_prompt c ∈ presetTexts) (inflight w) ∧
  Forall (λ item, promptUsed item ∈ presetTexts) (history (app w)).
Proof.
  intros Hrun.
  destruct (run_consistent br evs w Hrun)
    as (_ & _ & _ & _ & _ & Hprompt & Hcalls & Hhist).
  split_and!.
  - apply list_elem_of_fmap_1 in Hprompt as (p & Hp & Hin).
    exists p. split; [done|]. unfold presetSelected.
    by apply bool_decide_eq_true_2.
  - eapply Forall_impl; [exact Hcalls|]. by intros c [_ ?].
  - eapply Forall_impl; [exact Hhist|]. by intros item [_ ?].
Qed.

Lemma reachable_prompts_are_presets_witness :
  Forall (λ item, promptUsed item ∈ presetTexts)
    (history (app
      (default initialWorld
         (run demoBrowser initialWorld
            (PresetClicked 1 :: firstSuccessTrace))))).
Proof.
  refine (proj2 (proj2 (reachable_prompts_are_presets demoBrowser
    (PresetClicked 1 :: firstSuccessTrace) _ _)));
    vm_compute; reflexivity.
Defined.

(** X12. The edit service is never called on an empty image and no history
    entry has an empty original; as long as no source image has been
    selected, the status is Idle, no call is pending and the history is
    empty. *)
Theorem reachable_sources_present (br : Browser) (evs : list Event)
    (w : World) :
  run br initialWorld evs = Some w →
  Forall (λ c, g_sourceImage c ≠ EmptyString) (inflight w) ∧
  Forall (λ item, original item ≠ EmptyString) (history (app w)) ∧
  (sourceImage (app w) = None →
     status (app w) = IDLE ∧ inflight w = [] ∧ history (app w) = []).
Proof.
  intros Hrun.
  destruct (run_consistent br evs w Hrun)
    as (_ & _ & _ & _ & Hnone & _ & Hcalls & Hhist).
  split_and!; [| | done].
  - eapply Forall_impl; [exact Hcalls|]. by intros c [? _].
  - eapply Forall_impl; [exact Hhist|]. by intros item [? _].
Qed.

Lemma reachable_sources_present_witness :
  Forall (λ c, g_sourceImage c ≠ EmptyString)
    (inflight (default initialWorld
       (run demoBrowser initialWorld
          (ImageSelected "" "image/png" :: GenerateClicked :: reselectTrace)))).
Proof.
  refine (proj1 (reachable_sources_present demoBrowser
    (ImageSelected "" "image/png" :: GenerateClicked :: reselectTrace) _ _));
    vm_compute; reflexivity.
Defined.

(** ** The history along a run *)

(** X13. The history shown is exactly the (up to) ten most recently created
    entries, newest first. *)
Theorem history_is_last_ten_created (br : Browser) (evs : list Event)
    (w : World) :
  run br initialWorld evs = Some w →
  history (app w) = take 10 (reverse (createdItems br initialWorld evs)).
Proof.
  intros Hrun. rewrite (run_history_exact br evs initialWorld w); [|simpl; lia|done].
  simpl. by rewrite app_nil_r.
Qed.

Lemma history_is_last_ten_created_witness :
  history (app (default initialWorld
    (run demoBrowser initialWorld sameTickTrace)))
  = take 10 (reverse (createdItems demoBrowser initialWorld sameTickTrace)).
Proof.
  refine (history_is_last_ten_created demoBrowser sameTickTrace _ _);
    vm_compute; reflexivity.
Defined.

(** ** How the handlers compose *)

(** X14. [handleGenerate] itself does not look at the status.  Called with
    a source image present it starts an edit call whatever the status is,
    also in the Processing state it has just set: there it leaves the state
    as it is and starts a second call with the same arguments. *)
Theorem handleGenerate_has_no_status_guard (s : AppState) :
  truthyStr (sourceImage s) = true →
  ∃ s' c,
    handleGenerate s = (s', Some c) ∧
    status s' = PROCESSING ∧
    handleGenerate s' = (s', Some c) ∧
    ∀ st : AppStatus, (handleGenerate (setStatus st s)).2 = Some c.
Proof.
  destruct s as [st [[|a src]|] dims mime gen pr pro err an hist fv];
    try done.
  intros _. by do 2 eexists.
Qed.

Lemma handleGenerate_has_no_status_guard_witness :
  ∃ s' c,
    handleGenerate
      (setStatus PROCESSING (setSourceImage (Some "data:a") initialState))
    = (s', Some c) ∧
    g_sourceImage c = "data:a".
Proof.
  destruct (handleGenerate_has_no_status_guard
    (setStatus PROCESSING (setSourceImage (Some "data:a") initialState))
    eq_refl) as (s' & c & Hgen & _ & _ & Hany).
  exists s', c. split; [exact Hgen|].
  vm_compute in Hgen. injection Hgen as _ <-. reflexivity.
Defined.

(** X15. The analysis call is isolated from the generation: however it
    settles, status, error, generated image, source, history and the pending
    edit calls stay as they are.  A rejection changes nothing at all; a
    result is stored as the analysis text, whichever image is the current
    source by then. *)
Theorem analysis_settles_apart (br : Browser) (w : World) (k : nat)
    (call : string * string) (r : JsError + string) :
  analysing w !! k = Some call →
  ∃ w', step br w (AnalysisSettled k r) = Some w' ∧
    inflight w' = inflight w ∧
    status (app w') = status (app w) ∧
    error (app w') = error (app w) ∧
    generatedImage (app w') = generatedImage (app w) ∧
    sourceImage (app w') = sourceImage (app w) ∧
    history (app w') = history (app w) ∧
    match r with
    | inl _ => app w' = app w
    | inr result => analysis (app w') = Some result
    end.
Proof.
  intros Hk. eexists. simpl. rewrite Hk. simpl.
  split; [done|]. by destruct r.
Qed.

Lemma analysis_settles_apart_witness :
  ∃ w', step demoBrowser
          (default initialWorld (run demoBrowser initialWorld reselectTrace))
          (AnalysisSettled 0 (inr "A kitchen with two windows")) = Some w' ∧
        analysis (app w') = Some "A kitchen with two windows" ∧
        sourceImage (app w') = Some "data:b".
Proof.
  destruct (analysis_settles_apart demoBrowser
    (default initialWorld (run demoBrowser initialWorld reselectTrace)) 0
    ("data:a", "image/png") (inr "A kitchen with two windows") eq_refl)
    as (w' & Hstep & _ & _ & _ & _ & Hsrc & _ & Han).
  exists w'. split; [exact Hstep|]. split; [exact Han|].
  rewrite Hsrc. reflexivity.
Defined.

(** X16. A generation requested right after a click on a history entry sends
    the entry's original image, but with the MIME type, the dimensions and
    the prompt that the state held before the click, not those the entry was
    made with. *)
Theorem generate_after_history_click (item : HistoryItem) (s : AppState) :
  original item ≠ EmptyString →
  ∃ s' c, handleGenerate (handleHistoryClick item s) = (s', Some c) ∧
    g_sourceImage c = original item ∧
    g_mimeType c = mimeType s ∧
    g_originalDims c = originalDims s ∧
    g_prompt c = prompt s ∧
    status s' = PROCESSING ∧ generatedImage s' = None.
Proof.
  intros Horig. unfold handleGenerate, handleHistoryClick. simpl.
  destruct (original item) as [|a rest] eqn:Ho; [done|]. simpl.
  by do 2 eexists.
Qed.

Lemma generate_after_history_click_witness :
  ∃ s' c,
    handleGenerate
      (handleHistoryClick
         (mkHistoryItem "5" 5 "data:a" "data:out" "old prompt" "data:out")
         (setOriginalDims (Some (640, 480)) initialState)) = (s', Some c) ∧
    g_sourceImage c = "data:a" ∧
    g_originalDims c = Some (640, 480).
Proof.
  destruct (generate_after_history_click
    (mkHistoryItem "5" 5 "data:a" "data:out" "old prompt" "data:out")
    (setOriginalDims (Some (640, 480)) initialState) ltac:(discriminate))
    as (s' & c & Hgen & Hsrc & _ & Hdims & _).
  exists s', c. split; [exact Hgen|]. split; [exact Hsrc | exact Hdims].
Defined.

(** X17. A generation requested right after a source image is selected,
    before its [onload] has fired, sends the new image and its MIME type but
    keeps the dimensions recorded for the image selected before. *)
Theorem generate_after_image_select (base64 type : string) (s : AppState) :
  base64 ≠ EmptyString →
  ∃ s' c,
    handleGenerate (handleImageSelect base64 type s) = (s', Some c) ∧
    g_sourceImage c = base64 ∧
    g_mimeType c = type ∧
    g_originalDims c = originalDims s ∧
    g_prompt c = prompt s ∧
    g_usePro c = usePro s.
Proof.
  intros Hsrc. unfold handleGenerate, handleImageSelect. simpl.
  destruct base64 as [|a rest]; [done|]. simpl. by do 2 eexists.
Qed.

Lemma generate_after_image_select_witness :
  ∃ s' c,
    handleGenerate
      (handleImageSelect "data:b" "image/jpeg"
         (setOriginalDims (Some (640, 480)) initialState)) = (s', Some c) ∧
    g_sourceImage c = "data:b" ∧
    g_originalDims c = Some (640, 480).
Proof.
  destruct (generate_after_image_select "data:b" "image/jpeg"
    (setOriginalDims (Some (640, 480)) initialState) ltac:(discriminate))
    as (s' & c & Hgen & Hsrc & _ & Hdims & _).
  exists s', c. split; [exact Hgen|]. split; [exact Hsrc | exact Hdims].
Defined.

(** X18. Round trip through the history: after a generation has succeeded,
    its entry is the first of the history, and a click on it brings back the
    source the generation was requested for and the image it produced, with
    status Success and the history unchanged. *)
Theorem history_click_restores (br : Browser) (c : GenerateCall)
    (edit : JsError + string) (finalImage : string) (now1 now2 : Z)
    (s : AppState) :
  generateChain br c edit = inr finalImage →
  let s1 := handleGenerate_settle br c edit now1 now2 s in
  ∃ item, history s1 !! 0%nat = Some item ∧
    sourceImage (handleHistoryClick item s1) = Some (g_sourceImage c) ∧
    generatedImage (handleHistoryClick item s1) = Some finalImage ∧
    status (handleHistoryClick item s1) = SUCCESS ∧
    history (handleHistoryClick item s1) = history s1.
Proof.
  intros Hok. unfold handleGenerate_settle. rewrite Hok. simpl.
  eexists. split; [reflexivity|]. done.
Qed.

Lemma history_click_restores_witness :
  ∃ item,
    history (handleGenerate_settle probeBrowser
      (mkGenerateCall "data:a" "image/png" "p" false None)
      (inr "data:edited") 5 5 initialState) !! 0%nat = Some item ∧
    original item = "data:a" ∧ generated item = "canvas 2x1".
Proof.
  destruct (history_click_restores probeBrowser
    (mkGenerateCall "data:a" "image/png" "p" false None)
    (inr "data:edited") "canvas 2x1" 5 5 initialState eq_refl)
    as (item & Hitem & Hsrc & Hgen & _).
  exists item. split; [exact Hitem|].
  simpl in Hsrc, Hgen. split; congruence.
Defined.
